(** * N42: chain-configuration metadata accessors and keystore directory

    A shallow embedding of [modules/rawdb/accessors_metadata.go]
    ([ReadChainConfig], [WriteChainConfig]) and of the keystore-directory
    helpers of package [conf] ([KeyDirConfig], [getKeyStoreDir]), with the
    properties of the accessor contract proved over it.

    Go values are modelled as follows.
    - [[]byte] is [list byte]; a nil slice and an empty slice are both [[]]
      (the code only takes [len] of the slice and hands it on).
    - [error] is [option error]: [None] is Go's [nil].
    - A pointer result [*params.ChainConfig] is [option ChainConfig].
    - A function returning [(T, error)] returns the pair, as in Go: nothing
      in the types forces exactly one of the two to be set.
    - Calls on the store handle and on the logger are effects: they run in
      a state monad over the store and a log of the calls made. *)

From Stdlib Require Import NArith DecimalString DecimalN.
From Stdlib Require Import Strings.Byte.
From stdpp Require Import base option countable list strings gmap.

Set Default Proof Using "Type".

Abbreviation bytes := (list byte).

#[global] Instance byte_eq_dec : EqDecision byte := Byte.byte_eq_dec.

#[global] Instance byte_countable : Countable byte :=
  inj_countable' (A := N) Byte.to_N (fun n => default x00 (Byte.of_N n))
    (fun b => f_equal (default x00) (Byte.of_to_N b)).

(** ** The fragment of Go the accessors use *)
Module Go.

(** An [error] value. [errorString] is what [errors.New] and [fmt.Errorf]
    without a [%w] verb build: it carries a text and nothing else.
    [foreignError] is an error value made elsewhere (by the store, by the
    JSON package): [tag] stands for its identity (dynamic type, sentinel)
    and [text] for what its [Error()] method prints. *)
Inductive error : Type :=
| errorString (text : string)
| foreignError (tag : N) (text : string).

Definition Error (e : error) : string :=
  match e with
  | errorString s => s
  | foreignError _ s => s
  end.

(** [fmt.Errorf(format)] with a format that has no verb. *)
Definition fmt_Errorf (format : string) : error := errorString format.

(** [fmt.Errorf(prefix + "%v", err)]: the text of [err] is printed after
    [prefix]; [%v] keeps the text only, the result does not unwrap. *)
Definition fmt_Errorf_v (prefix : string) (err : error) : error :=
  errorString (prefix +:+ Error err).

Definition len (s : bytes) : nat := length s.

#[global] Instance error_eq_dec : EqDecision error.
Proof. solve_decision. Defined.

End Go.
Export Go.

(** ** package types *)
Module types.

Definition HashLength : nat := 32.

(** Modelled from the spec: [types.Hash] is declared in [common/types],
    outside this file; the data model gives it as a fixed-length binary
    identifier of 32 bytes, used only as key material. *)
Record Hash : Type := mkHash {
  Bytes : bytes;
  Bytes_length : length Bytes = HashLength
}.

End types.

(** ** package kv: the store handle *)
Module kv.

(** [kv.Getter]: single-key lookup in a table. *)
Class Getter (DB : Type) : Type := {
  GetOne : DB -> string -> bytes -> bytes * option error
}.

(** [kv.RwTx]: a [Getter] that can also upsert. [Put] hands back the
    store as the call left it, also when it fails. *)
Class RwTx (DB : Type) : Type := {
  RwTx_Getter :: Getter DB;
  Put : DB -> string -> bytes -> bytes -> DB * option error
}.

(** A handle whose [GetOne] and [Put] behave as a key-value map. *)
Class MapLike (DB : Type) `{RwTx DB} : Prop := {
  get_put_eq : forall db db' table k v,
    Put db table k v = (db', None) -> GetOne db' table k = (v, None);
  get_put_ne : forall db db' table k v r table' k',
    Put db table k v = (db', r) -> (table, k) <> (table', k') ->
    GetOne db' table' k' = GetOne db table' k'
}.

(** *** An in-memory store: a finite map from (table, key) to value.
    A key that is absent reads as zero bytes with no error. *)
Record memdb : Type := MemDB { cells : gmap (string * bytes) bytes }.

#[global] Instance memdb_Getter : Getter memdb := {
  GetOne db table k := (default [] (cells db !! (table, k)), None)
}.

#[global] Instance memdb_RwTx : RwTx memdb := {
  Put db table k v := (MemDB (<[(table, k) := v]> (cells db)), None)
}.

(** *** A store with injected faults, over the in-memory one.
    [getFault] makes every lookup fail, [putFault] every upsert; a failed
    upsert writes nothing. *)
Record faultydb : Type := FaultyDB {
  under : memdb;
  getFault : option error;
  putFault : option error
}.

#[global] Instance faultydb_Getter : Getter faultydb := {
  GetOne db table k :=
    match getFault db with
    | Some e => ([], Some e)
    | None => GetOne (under db) table k
    end
}.

#[global] Instance faultydb_RwTx : RwTx faultydb := {
  Put db table k v :=
    match putFault db with
    | Some e => (db, Some e)
    | None =>
        (FaultyDB (fst (Put (under db) table k v)) (getFault db) (putFault db),
         None)
    end
}.

End kv.

#[global] Existing Instance kv.RwTx_Getter.

(** ** package encoding/json, at the type of the configuration record *)
Module json.

(** What [json.Marshal] and [json.Unmarshal] do at one Go type [T].
    [zero] is the zero value a [var x T] declaration gives.
    [Unmarshal data x] decodes [data] into [x] and returns what [x] holds
    afterwards together with the error: on a failed decode the record may
    be left partly filled. *)
Class Codec (T : Type) : Type := {
  zero : T;
  Marshal : T -> bytes * option error;
  Unmarshal : bytes -> T -> T * option error
}.

(** The JSON parser rejects empty input ([unexpected end of JSON input]). *)
Class RejectsEmpty (T : Type) `{Codec T} : Prop :=
  unmarshal_empty : forall x : T, is_Some (snd (Unmarshal [] x)).

(** A record is encoded without loss when the bytes [Marshal] gives
    decode, into a zero value, to the record itself. *)
Definition lossless {T : Type} `{Codec T} (c : T) : Prop :=
  forall data, Marshal c = (data, None) -> Unmarshal data zero = (c, None).

End json.

(** ** package modules: table names and key schema *)
Module modules.

(** Modelled from the spec: the table-name constant [modules.ChainConfig]
    is declared in package [modules], outside this file; the key format of
    the external interfaces gives its value. *)
Definition ChainConfig : string := "ChainConfig".

(** Modelled from the spec: [modules.ConfigKey] is declared in package
    [modules], outside this file; the key format is the fixed prefix
    followed by the 32 bytes of the hash, with no separator. The prefix
    itself is not given and stays a parameter. *)
Definition ConfigKey (configPrefix : bytes) (hash : types.Hash) : bytes :=
  configPrefix ++ types.Bytes hash.

End modules.

(** ** Effects: the store and the log of calls *)
Module effects.

Inductive event : Type :=
| CallGetOne (table : string) (key : bytes)
| CallPut (table : string) (key value : bytes)
| CallLogError (msg : string) (err : error).

Record world (DB : Type) : Type := World {
  store : DB;
  calls : list event
}.
Arguments World {DB} _ _.
Arguments store {DB} _.
Arguments calls {DB} _.

Definition fresh {DB : Type} (db : DB) : world DB := World db [].

(** Computations that thread a state [S]. *)
Definition State (S A : Type) : Type := S -> A * S.

#[global] Instance State_ret {S} : MRet (State S) := fun A a s => (a, s).

#[global] Instance State_bind {S} : MBind (State S) :=
  fun A B k m s => let '(a, s') := m s in k a s'.

(** A call that only reads the state, and one that may change it. *)
Definition reads {S A} (f : S -> A) : State S A := fun s => (f s, s).
Definition calls_on {S A} (f : S -> A * S) : State S A := f.

(** Computations of the accessors: the state is the store and the calls. *)
Abbreviation M DB := (State (world DB)).

Definition record {DB} (e : event) (w : world DB) : world DB :=
  World (store w) (calls w ++ [e]).

(** [db.GetOne(table, key)] *)
Definition db_GetOne {DB} `{kv.Getter DB} (table : string) (key : bytes)
  : M DB (bytes * option error) :=
  fun w => (kv.GetOne (store w) table key, record (CallGetOne table key) w).

(** [db.Put(table, key, value)] *)
Definition db_Put {DB} `{kv.RwTx DB} (table : string) (key value : bytes)
  : M DB (option error) :=
  fun w =>
    let '(db', err) := kv.Put (store w) table key value in
    (err, World db' (calls w ++ [CallPut table key value])).

(** [log.Error(msg, "err", err)] *)
Definition log_Error {DB} (msg : string) (err : error) : M DB unit :=
  fun w => (tt, record (CallLogError msg err) w).

End effects.
Export effects.

(** ** package rawdb *)
Module rawdb.
Section Accessors.

Context {DB : Type} {ChainConfig : Type} `{json.Codec ChainConfig}.
Variable configPrefix : bytes.

Definition ConfigKey := modules.ConfigKey configPrefix.

(** ReadChainConfig retrieves the consensus settings based on the given
    genesis hash. *)
Definition ReadChainConfig `{kv.Getter DB} (hash : types.Hash)
  : M DB (option ChainConfig * option error) :=
  '(data, err) ← db_GetOne modules.ChainConfig (ConfigKey hash);
  match err with
  | Some err =>
      mret (None, Some (fmt_Errorf_v "fetch ChainConfig from db ,error: " err))
  | None =>
      if Nat.eqb (len data) 0 then
        mret (None, Some (fmt_Errorf "ChainConfig are empty"))
      else
        let '(config, err) := json.Unmarshal data json.zero in
        match err with
        | Some err =>
            mret (None, Some (fmt_Errorf_v "invalid chain config JSON err: " err))
        | None => mret (Some config, None)
        end
  end.

(** WriteChainConfig writes the chain config settings to the database. *)
Definition WriteChainConfig `{kv.RwTx DB} (hash : types.Hash)
    (cfg : option ChainConfig) : M DB (option error) :=
  match cfg with
  | None => mret (Some (fmt_Errorf "invalid cfg"))
  | Some cfg =>
      let '(data, err) := json.Marshal cfg in
      match err with
      | Some err =>
          log_Error "Failed to JSON encode chain config" err;;
          mret (Some err)
      | None =>
          err ← db_Put modules.ChainConfig (ConfigKey hash) data;
          match err with
          | Some err =>
              log_Error "Failed to store chain config" err;;
              mret (Some err)
          | None => mret None
          end
      end
  end.

End Accessors.
End rawdb.

(** ** Paths and directories: what package conf asks of the platform *)
Module os.

(** [path/filepath] and [os], as far as the keystore helpers call them.
    [IsAbs] and [Join] compute on the path alone; [Abs] reads the working
    directory; [MkdirTemp] and [MkdirAll] change the file system. *)
Class Filesystem (FS : Type) : Type := {
  filepath_IsAbs : string -> bool;
  filepath_Join : string -> string -> string;
  filepath_Abs : FS -> string -> string * option error;
  os_MkdirTemp : FS -> string -> string -> (string * option error) * FS;
  os_MkdirAll : FS -> string -> N -> option error * FS
}.

(** Facts of [path/filepath] the resolution relies on: the empty path is
    not absolute, a join with a non-empty first element is not empty, and
    a path made absolute is not empty. *)
Class PathLaws (FS : Type) `{Filesystem FS} : Prop := {
  IsAbs_empty : filepath_IsAbs "" = false;
  Join_nonempty : forall a b, a <> "" -> filepath_Join a b <> "";
  Abs_nonempty : forall fs p s, filepath_Abs fs p = (s, None) -> s <> ""
}.

(** *** A small Unix-like file system.
    [cwdRel] is the working directory below the root, [dirs] the
    directories made so far, [tmpWritable] whether a temporary directory
    can be made, [tmpSeq] numbers the temporary directories. *)
Record unixfs : Type := UnixFS {
  cwdRel : string;
  dirs : list string;
  tmpWritable : bool;
  tmpSeq : N
}.

Definition unix_IsAbs (p : string) : bool := String.prefix "/" p.

Definition unix_Join (a b : string) : string :=
  if String.eqb a "" then b
  else if String.eqb b "" then a
  else a +:+ "/" +:+ b.

Definition unix_Abs (fs : unixfs) (p : string) : string * option error :=
  if unix_IsAbs p then (p, None)
  else (unix_Join ("/" +:+ cwdRel fs) p, None).

Definition unix_MkdirTemp (fs : unixfs) (dir pattern : string)
  : (string * option error) * unixfs :=
  if tmpWritable fs then
    let name :=
      unix_Join (if String.eqb dir "" then "/tmp" else dir)
        (pattern +:+ NilEmpty.string_of_uint (N.to_uint (tmpSeq fs))) in
    ((name, None),
     UnixFS (cwdRel fs) (name :: dirs fs) true (N.succ (tmpSeq fs)))
  else (("", Some (foreignError 13 "permission denied")), fs).

Definition unix_MkdirAll (fs : unixfs) (p : string) (perm : N)
  : option error * unixfs :=
  if decide (p ∈ dirs fs) then (None, fs)
  else (None, UnixFS (cwdRel fs) (p :: dirs fs) (tmpWritable fs) (tmpSeq fs)).

#[global] Instance unixfs_Filesystem : Filesystem unixfs := {
  filepath_IsAbs := unix_IsAbs;
  filepath_Join := unix_Join;
  filepath_Abs := unix_Abs;
  os_MkdirTemp := unix_MkdirTemp;
  os_MkdirAll := unix_MkdirAll
}.

End os.

(** ** package conf *)
Module conf.

(** Path within the datadir to the keystore *)
Definition datadirDefaultKeyStore : string := "keystore".

Record NodeConfig : Type := mkNodeConfig {
  NodePrivate : string;
  HTTP : bool;
  HTTPHost : string;
  HTTPPort : string;
  HTTPApi : string;
  HTTPCors : string;
  WS : bool;
  WSHost : string;
  WSPort : string;
  WSApi : string;
  WSOrigins : string;
  IPCPath : string;
  DataDir : string;
  MinFreeDiskSpace : Z;
  Chain : string;
  Miner : bool;
  AuthRPC : bool;
  AuthAddr : string;
  AuthPort : Z;
  AuthVirtualHosts : list string;
  JWTSecret : string;
  KeyStoreDir : string;
  ExternalSigner : string;
  UseLightweightKDF : bool;
  InsecureUnlockAllowed : bool;
  PasswordFile : string
}.

(** The zero value of [NodeConfig] with the two directories set. *)
Definition withDirs (dataDir keyStoreDir : string) : NodeConfig :=
  {| NodePrivate := ""; HTTP := false; HTTPHost := ""; HTTPPort := "";
     HTTPApi := ""; HTTPCors := ""; WS := false; WSHost := ""; WSPort := "";
     WSApi := ""; WSOrigins := ""; IPCPath := ""; DataDir := dataDir;
     MinFreeDiskSpace := 0; Chain := ""; Miner := false; AuthRPC := false;
     AuthAddr := ""; AuthPort := 0; AuthVirtualHosts := []; JWTSecret := "";
     KeyStoreDir := keyStoreDir; ExternalSigner := "";
     UseLightweightKDF := false; InsecureUnlockAllowed := false;
     PasswordFile := "" |}.

Section KeyStore.

Context {FS : Type} `{os.Filesystem FS}.

(** KeyDirConfig determines the settings for keydirectory. The [switch]
    takes the first case whose condition holds; with none, [keydir] and
    [err] keep their zero values. It reads the file system, through
    [filepath.Abs], and does not change it. *)
Definition KeyDirConfig (c : NodeConfig) (fs : FS) : string * option error :=
  if os.filepath_IsAbs (KeyStoreDir c) then (KeyStoreDir c, None)
  else if negb (String.eqb (DataDir c) "") then
    if String.eqb (KeyStoreDir c) "" then
      (os.filepath_Join (DataDir c) datadirDefaultKeyStore, None)
    else os.filepath_Abs fs (KeyStoreDir c)
  else if negb (String.eqb (KeyStoreDir c) "") then
    os.filepath_Abs fs (KeyStoreDir c)
  else ("", None).

(** getKeyStoreDir retrieves the key directory and will create and
    ephemeral one if necessary. *)
Definition getKeyStoreDir (conf : NodeConfig)
  : State FS (string * bool * option error) :=
  '(keydir, err) ← reads (KeyDirConfig conf);
  match err with
  | Some err => mret ("", false, Some err)
  | None =>
      '(keydir, isEphemeral, err) ←
        (if String.eqb keydir "" then
           (* There is no datadir. *)
           '(keydir, err) ←
             calls_on (fun fs => os.os_MkdirTemp fs "" "N42-keystore");
           mret (keydir, true, err)
         else mret (keydir, false, None));
      match err with
      | Some err => mret ("", false, Some err)
      | None =>
          err ← calls_on (fun fs => os.os_MkdirAll fs keydir 448 (* 0700 *));
          match err with
          | Some err => mret ("", false, Some err)
          | None => mret (keydir, isEphemeral, None)
          end
      end
  end.

(** ExtRPCEnabled returns the indicator whether node enables the external
    RPC(http, ws or graphql). *)
Definition ExtRPCEnabled (c : NodeConfig) : bool :=
  negb (String.eqb (HTTPHost c) "") || negb (String.eqb (WSHost c) "").

End KeyStore.
End conf.

(** ** A sample configuration record with a JSON encoding
    [params.ChainConfig] is declared in package [params], outside this file,
    and the accessors never look inside it, so they are stated for any record type
    with a codec. This one-field record, written as [{"chainId":N}] with
    [N] in decimal, serves as a concrete instance. *)
Module sample.

Record ChainConfig : Type := mkChainConfig { ChainID : N }.

(** The bytes of [{"chainId":] and of the closing brace. *)
Definition opening : bytes :=
  [x7b; x22; x63; x68; x61; x69; x6e; x49; x64; x22; x3a].
Definition closing : byte := x7d.

Definition digits (n : N) : bytes :=
  String.list_byte_of_string (NilEmpty.string_of_uint (N.to_uint n)).

Definition number (ds : bytes) : option N :=
  match NilEmpty.uint_of_string (String.string_of_list_byte ds) with
  | Some Decimal.Nil | None => None
  | Some d => Some (N.of_uint d)
  end.

Fixpoint trim_prefix (p l : bytes) : option bytes :=
  match p, l with
  | [], _ => Some l
  | a :: p', b :: l' => if decide (a = b) then trim_prefix p' l' else None
  | _ :: _, [] => None
  end.

Definition syntaxError (text : string) : error := foreignError 1 text.

Definition Marshal (c : ChainConfig) : bytes * option error :=
  (opening ++ digits (ChainID c) ++ [closing], None).

Definition Unmarshal (data : bytes) (x : ChainConfig)
  : ChainConfig * option error :=
  match trim_prefix opening data with
  | None =>
      (x, Some (syntaxError
         (if decide (data = []) then "unexpected end of JSON input"
          else "invalid character looking for beginning of value")))
  | Some rest =>
      match rev rest with
      | b :: rds =>
          if decide (b = closing) then
            match number (rev rds) with
            | Some n => (mkChainConfig n, None)
            | None => (x, Some (syntaxError "invalid number literal"))
            end
          else (x, Some (syntaxError "unexpected end of JSON input"))
      | [] => (x, Some (syntaxError "unexpected end of JSON input"))
      end
  end.

#[global] Instance ChainConfig_Codec : json.Codec ChainConfig := {
  json.zero := mkChainConfig 0;
  json.Marshal := Marshal;
  json.Unmarshal := Unmarshal
}.

(** A record type whose encoder always fails, as a channel or a function
    value does in Go. *)
Record Unencodable : Type := mkUnencodable {}.

#[global] Instance Unencodable_Codec : json.Codec Unencodable := {
  json.zero := mkUnencodable;
  json.Marshal _ := ([], Some (foreignError 2 "json: unsupported type"));
  json.Unmarshal _ x := (x, Some (syntaxError "unexpected end of JSON input"))
}.

Definition hashOf (b : byte) : types.Hash :=
  types.mkHash (replicate 32 b) eq_refl.

(** The prefix used in the examples (the text [chain-config-]). *)
Definition prefix : bytes :=
  [x63; x68; x61; x69; x6e; x2d; x63; x6f; x6e; x66; x69; x67; x2d].

End sample.

(** ** Reading the log of calls *)
Module trace.

Definition is_lookup (e : event) : bool :=
  match e with CallGetOne _ _ => true | _ => false end.

Definition is_put (e : event) : bool :=
  match e with CallPut _ _ _ => true | _ => false end.

Definition is_log (e : event) : bool :=
  match e with CallLogError _ _ => true | _ => false end.

(** The calls a computation added when run from [w]: what its log holds
    beyond the log of [w]. *)
Definition added {DB A} (m : M DB A) (w : world DB) : list event :=
  drop (length (calls w)) (calls (snd (m w))).

End trace.

(** ** A file system whose working directory is gone
    Over the Unix-like one: a path that is not absolute cannot be made
    absolute, as when [os.Getwd] fails. *)
Module lostcwd.

Record fs : Type := LostCwd { base : os.unixfs }.

Definition Abs (f : fs) (p : string) : string * option error :=
  if os.unix_IsAbs p then (p, None)
  else ("", Some (foreignError 2 "getwd: no such file or directory")).

Definition MkdirTemp (f : fs) (dir pattern : string)
  : (string * option error) * fs :=
  let '(r, b) := os.unix_MkdirTemp (base f) dir pattern in (r, LostCwd b).

Definition MkdirAll (f : fs) (p : string) (perm : N) : option error * fs :=
  let '(r, b) := os.unix_MkdirAll (base f) p perm in (r, LostCwd b).

#[global] Instance fs_Filesystem : os.Filesystem fs := {
  os.filepath_IsAbs := os.unix_IsAbs;
  os.filepath_Join := os.unix_Join;
  os.filepath_Abs := Abs;
  os.os_MkdirTemp := MkdirTemp;
  os.os_MkdirAll := MkdirAll
}.

End lostcwd.

(** ** package errors *)
Module errors.

(** [errors.Unwrap(err)]: the error that [err] wraps, nil when it wraps
    none. An [errorString] has no [Unwrap] method; an error made elsewhere
    is taken as it is handed over, with nothing looked up inside it. *)
Definition Unwrap (err : error) : option error :=
  match err with
  | errorString _ => None
  | foreignError _ _ => None
  end.

End errors.

(** ** The sample codec with another parser
    The same encoding as [sample.ChainConfig_Codec]; the errors of the
    decoder keep their text and are values of identity [tag]. *)
Module retagged.

Definition Unmarshal (tag : N) (data : bytes) (x : sample.ChainConfig)
  : sample.ChainConfig * option error :=
  let '(c, err) := sample.Unmarshal data x in
  (c, (fun e => foreignError tag (Error e)) <$> err).

Definition Codec (tag : N) : json.Codec sample.ChainConfig := {|
  json.zero := sample.mkChainConfig 0;
  json.Marshal := sample.Marshal;
  json.Unmarshal := Unmarshal tag
|}.

End retagged.

(** * Properties *)

(** ** The instances obey their laws *)

#[global] Instance memdb_MapLike : kv.MapLike kv.memdb.
Proof.
  split.
  - intros [m] db' table k v [= <-]. cbn. by rewrite lookup_insert_eq.
  - intros [m] db' table k v r table' k' [= <- <-] Hne. cbn.
    by rewrite lookup_insert_ne.
Qed.

Lemma trim_prefix_app (p l : bytes) : sample.trim_prefix p (p ++ l) = Some l.
Proof.
  induction p as [|a p IH]; [done|]. cbn. by rewrite decide_True.
Qed.

Lemma number_digits (n : N) : sample.number (sample.digits n) = Some n.
Proof.
  unfold sample.number, sample.digits.
  rewrite String.string_of_list_byte_of_string, NilEmpty.usu.
  pose proof (DecimalN.Unsigned.of_to n) as Hn.
  destruct (N.to_uint n) eqn:E; rewrite <- ?Hn; try done.
  destruct n as [|q]; [done|]. cbn in E.
  by destruct (DecimalPos.Unsigned.to_uint_nonnil q).
Qed.

Lemma sample_roundtrip (c : sample.ChainConfig) (x : sample.ChainConfig) :
  sample.Unmarshal (fst (sample.Marshal c)) x = (c, None).
Proof.
  destruct c as [n]. unfold sample.Marshal, sample.Unmarshal. cbn [fst].
  rewrite trim_prefix_app, rev_app_distr. cbn [rev app sample.ChainID].
  rewrite decide_True by done.
  by rewrite rev_involutive, number_digits.
Qed.

Lemma sample_lossless (c : sample.ChainConfig) : json.lossless c.
Proof.
  intros data [= <-]. apply (sample_roundtrip c).
Qed.

#[global] Instance sample_RejectsEmpty : json.RejectsEmpty sample.ChainConfig.
Proof. intros x. by eexists. Qed.

#[global] Instance unixfs_PathLaws : os.PathLaws os.unixfs.
Proof.
  split.
  - done.
  - intros a b Ha. cbn. unfold os.unix_Join.
    destruct (String.eqb_spec a ""); [done|].
    destruct (String.eqb_spec b ""); [done|].
    destruct a; [done|]. discriminate.
  - intros fs p s. cbn. unfold os.unix_Abs.
    destruct (os.unix_IsAbs p) eqn:E.
    + intros [= <-] ->. discriminate.
    + intros [= <-]. unfold os.unix_Join. cbn.
      by destruct (String.eqb p "").
Qed.

(** ** Keys *)

Lemma Hash_eq (h1 h2 : types.Hash) : types.Bytes h1 = types.Bytes h2 -> h1 = h2.
Proof.
  destruct h1 as [b1 L1], h2 as [b2 L2]. cbn. intros ->.
  f_equal. apply (proof_irrel _).
Qed.

Lemma ConfigKey_inj (configPrefix : bytes) (h1 h2 : types.Hash) :
  modules.ConfigKey configPrefix h1 = modules.ConfigKey configPrefix h2 ->
  h1 = h2.
Proof.
  unfold modules.ConfigKey. intros E. apply Hash_eq.
  by apply app_inv_head in E.
Qed.

Lemma ConfigKey_length (configPrefix : bytes) (h : types.Hash) :
  length (modules.ConfigKey configPrefix h) = length configPrefix + 32.
Proof.
  unfold modules.ConfigKey. by rewrite length_app, types.Bytes_length.
Qed.

(** ** The texts of the errors [ReadChainConfig] builds *)

Lemma empty_is_not_fetch (e : error) :
  fmt_Errorf "ChainConfig are empty"
  <> fmt_Errorf_v "fetch ChainConfig from db ,error: " e.
Proof. discriminate. Qed.

Lemma empty_is_not_decode (e : error) :
  fmt_Errorf "ChainConfig are empty"
  <> fmt_Errorf_v "invalid chain config JSON err: " e.
Proof. discriminate. Qed.

(** ** One equation per path through the accessors *)
Section Paths.

Context {DB : Type} {ChainConfig : Type} `{json.Codec ChainConfig}.
Variable configPrefix : bytes.

Local Abbreviation key := (modules.ConfigKey configPrefix).
Local Abbreviation Read := (rawdb.ReadChainConfig (ChainConfig := ChainConfig) configPrefix).
Local Abbreviation Write := (rawdb.WriteChainConfig (ChainConfig := ChainConfig) configPrefix).

Ltac run :=
  unfold rawdb.ReadChainConfig, rawdb.WriteChainConfig, rawdb.ConfigKey,
    mbind, State_bind, mret, State_ret, db_GetOne, db_Put, log_Error, record;
  cbn [store calls fst snd].

Section Reading.
Context `{kv.Getter DB}.

Lemma Read_world (h : types.Hash) (w : world DB) :
  snd (Read h w) = record (CallGetOne modules.ChainConfig (key h)) w.
Proof.
  run. destruct (kv.GetOne _ _ _) as [data [e|]]; [done|].
  destruct (Nat.eqb _ _); [done|].
  by destruct (json.Unmarshal _ _) as [c [e|]].
Qed.

Lemma Read_fetch_error (h : types.Hash) (w : world DB) data e :
  kv.GetOne (store w) modules.ChainConfig (key h) = (data, Some e) ->
  fst (Read h w)
  = (None, Some (fmt_Errorf_v "fetch ChainConfig from db ,error: " e)).
Proof. intros E. run. by rewrite E. Qed.

Lemma Read_empty (h : types.Hash) (w : world DB) :
  kv.GetOne (store w) modules.ChainConfig (key h) = ([], None) ->
  fst (Read h w) = (None, Some (fmt_Errorf "ChainConfig are empty")).
Proof. intros E. run. by rewrite E. Qed.

Lemma Read_decode_error (h : types.Hash) (w : world DB) data x e :
  kv.GetOne (store w) modules.ChainConfig (key h) = (data, None) ->
  data <> [] ->
  json.Unmarshal data json.zero = (x, Some e) ->
  fst (Read h w)
  = (None, Some (fmt_Errorf_v "invalid chain config JSON err: " e)).
Proof.
  intros E Hne U. run. rewrite E.
  destruct data; [done|]. cbn [len length Nat.eqb]. by rewrite U.
Qed.

Lemma Read_decoded (h : types.Hash) (w : world DB) data c :
  kv.GetOne (store w) modules.ChainConfig (key h) = (data, None) ->
  data <> [] ->
  json.Unmarshal data json.zero = (c, None) ->
  fst (Read h w) = (Some c, None).
Proof.
  intros E Hne U. run. rewrite E.
  destruct data; [done|]. cbn [len length Nat.eqb]. by rewrite U.
Qed.

(** The result of a read is a function of what the lookup returns. *)
Lemma Read_same_lookup (h h' : types.Hash) (w w' : world DB) :
  kv.GetOne (store w) modules.ChainConfig (key h)
  = kv.GetOne (store w') modules.ChainConfig (key h') ->
  fst (Read h w) = fst (Read h' w').
Proof.
  intros E. run. rewrite E. clear E.
  destruct (kv.GetOne _ _ _) as [data [e|]]; [done|].
  destruct (Nat.eqb _ _); [done|].
  by destruct (json.Unmarshal _ _) as [c [e|]].
Qed.

(** The empty-record error comes from the zero-bytes path only. *)
Lemma Read_empty_inv (h : types.Hash) (w : world DB) :
  snd (fst (Read h w)) = Some (fmt_Errorf "ChainConfig are empty") ->
  kv.GetOne (store w) modules.ChainConfig (key h) = ([], None).
Proof.
  run. destruct (kv.GetOne _ _ _) as [data [e|]]; [discriminate|].
  destruct data as [|b data]; [done|]. cbn [len length Nat.eqb].
  destruct (json.Unmarshal _ _) as [c [e|]]; discriminate.
Qed.
End Reading.

Section Writing.
Context `{kv.RwTx DB}.

Lemma Write_nil (h : types.Hash) (w : world DB) :
  Write h None w = (Some (fmt_Errorf "invalid cfg"), w).
Proof. done. Qed.

Lemma Write_encode_error (h : types.Hash) (w : world DB) c data e :
  json.Marshal c = (data, Some e) ->
  Write h (Some c) w
  = (Some e,
     World (store w)
       (calls w ++ [CallLogError "Failed to JSON encode chain config" e])).
Proof. intros E. run. by rewrite E. Qed.

Lemma Write_put_error (h : types.Hash) (w : world DB) c data db' e :
  json.Marshal c = (data, None) ->
  kv.Put (store w) modules.ChainConfig (key h) data = (db', Some e) ->
  Write h (Some c) w
  = (Some e,
     World db'
       ((calls w ++ [CallPut modules.ChainConfig (key h) data])
          ++ [CallLogError "Failed to store chain config" e])).
Proof. intros E P. run. by rewrite E, P. Qed.

Lemma Write_stored (h : types.Hash) (w : world DB) c data db' :
  json.Marshal c = (data, None) ->
  kv.Put (store w) modules.ChainConfig (key h) data = (db', None) ->
  Write h (Some c) w
  = (None, World db' (calls w ++ [CallPut modules.ChainConfig (key h) data])).
Proof. intros E P. run. by rewrite E, P. Qed.

(** A write that returns nil has encoded the record and put it. *)
Lemma Write_stored_inv (h : types.Hash) (w w' : world DB) cfg :
  Write h cfg w = (None, w') ->
  exists c data,
    cfg = Some c /\ json.Marshal c = (data, None) /\
    kv.Put (store w) modules.ChainConfig (key h) data = (store w', None) /\
    calls w' = calls w ++ [CallPut modules.ChainConfig (key h) data].
Proof.
  destruct cfg as [c|]; [|discriminate]. run.
  destruct (json.Marshal c) as [data [e|]] eqn:E; [discriminate|].
  destruct (kv.Put _ _ _ _) as [db' [e|]] eqn:P; [discriminate|].
  intros [= <-]. by exists c, data.
Qed.

(** Whatever a write does, it leaves every other key as it was. *)
Lemma Write_other_key `{!kv.MapLike DB} (h : types.Hash) (w : world DB)
    cfg table k :
  (modules.ChainConfig, key h) <> (table, k) ->
  kv.GetOne (store (snd (Write h cfg w))) table k
  = kv.GetOne (store w) table k.
Proof.
  intros Hne. destruct cfg as [c|]; [|done]. run.
  destruct (json.Marshal c) as [data [e|]]; [done|].
  destruct (kv.Put _ _ _ _) as [db' r] eqn:P.
  assert (kv.GetOne db' table k = kv.GetOne (store w) table k) as G
    by (eapply kv.get_put_ne; eauto).
  by destruct r.
Qed.

(** The bytes of a record encoded without loss are not empty: the decoder
    rejects empty input. *)
Lemma lossless_nonempty `{!json.RejectsEmpty ChainConfig} (c : ChainConfig)
    data :
  json.lossless c -> json.Marshal c = (data, None) -> data <> [].
Proof.
  intros Hc Em ->. specialize (Hc _ Em).
  destruct (json.unmarshal_empty json.zero) as [e He].
  rewrite Hc in He. discriminate.
Qed.

(** After a write that returns nil the key reads back the encoded bytes. *)
Lemma Write_then_lookup `{!kv.MapLike DB} (h : types.Hash) (w w' : world DB)
    c :
  Write h (Some c) w = (None, w') ->
  exists data,
    json.Marshal c = (data, None) /\
    kv.GetOne (store w') modules.ChainConfig (key h) = (data, None).
Proof.
  intros Hw.
  apply Write_stored_inv in Hw as (c' & data & [= <-] & Em & Ep & _).
  exists data. split; [done|]. by eapply kv.get_put_eq.
Qed.

Lemma Read_last_written `{!kv.MapLike DB} `{!json.RejectsEmpty ChainConfig}
    (h : types.Hash) (w w' : world DB) c :
  json.lossless c ->
  Write h (Some c) w = (None, w') ->
  fst (Read h w') = (Some c, None).
Proof.
  intros Hc Hw. apply Write_then_lookup in Hw as (data & Em & Eg).
  eapply Read_decoded; [exact Eg | by eapply lossless_nonempty | by apply Hc].
Qed.
End Writing.

End Paths.

(** ** The accessor contract *)

(** C1 (round trip). On a store whose lookup and upsert behave as a
    key-value map, and for a record the JSON codec encodes without loss, a
    [WriteChainConfig] under hash [h] that returns nil is followed by a
    [ReadChainConfig] under [h] that returns that record and a nil error. *)
Theorem ReadChainConfig_after_WriteChainConfig
    {DB : Type} {RW : kv.RwTx DB} {ML : kv.MapLike DB}
    {ChainConfig : Type} {JC : json.Codec ChainConfig}
    {RE : json.RejectsEmpty ChainConfig}
    (configPrefix : bytes) (h : types.Hash) (c : ChainConfig)
    (w w' : world DB) :
  json.lossless c ->
  rawdb.WriteChainConfig configPrefix h (Some c) w = (None, w') ->
  fst (rawdb.ReadChainConfig configPrefix h w') = (Some c, None).
Proof.
  intros Hc Hw.
  (* the write encoded [c] and put the bytes under the key of [h] *)
  apply Write_stored_inv in Hw as (c' & data & [= <-] & Em & Ep & _).
  (* the store gives those bytes back *)
  apply kv.get_put_eq in Ep.
  (* they are not empty, and they decode to [c] *)
  pose proof (lossless_nonempty c data Hc Em) as Hne.
  eapply Read_decoded; [exact Ep | exact Hne | by apply Hc].
Qed.

Lemma ReadChainConfig_after_WriteChainConfig_witness :
  fst (rawdb.ReadChainConfig sample.prefix (sample.hashOf x01)
         (snd (rawdb.WriteChainConfig sample.prefix (sample.hashOf x01)
                 (Some (sample.mkChainConfig 42)) (fresh (kv.MemDB ∅)))))
  = (Some (sample.mkChainConfig 42), None).
Proof.
  apply (ReadChainConfig_after_WriteChainConfig (RW := kv.memdb_RwTx)
           sample.prefix (sample.hashOf x01) (sample.mkChainConfig 42)
           (fresh (kv.MemDB ∅))).
  - apply sample_lossless.
  - reflexivity.
Defined.

(** C2 (isolation). Distinct genesis hashes derive distinct storage keys,
    and so a [WriteChainConfig] under [h1], whatever it is given and however
    it ends, leaves what [ReadChainConfig] returns under [h2] as it was. *)
Theorem WriteChainConfig_other_hash
    {DB : Type} {RW : kv.RwTx DB} {ML : kv.MapLike DB}
    {ChainConfig : Type} {JC : json.Codec ChainConfig}
    (configPrefix : bytes) (h1 h2 : types.Hash) (cfg : option ChainConfig)
    (w : world DB) :
  h1 <> h2 ->
  modules.ConfigKey configPrefix h1 <> modules.ConfigKey configPrefix h2 /\
  fst (rawdb.ReadChainConfig configPrefix h2
         (snd (rawdb.WriteChainConfig configPrefix h1 cfg w)))
  = fst (rawdb.ReadChainConfig (ChainConfig := ChainConfig) configPrefix h2 w).
Proof.
  intros Hne.
  assert (modules.ConfigKey configPrefix h1 <> modules.ConfigKey configPrefix h2)
    as Hk by (intros E; by apply ConfigKey_inj in E).
  split; [exact Hk|].
  apply Read_same_lookup, Write_other_key; [exact ML | congruence].
Qed.

Lemma WriteChainConfig_other_hash_witness :
  let h1 := sample.hashOf x01 in
  let h2 := sample.hashOf x02 in
  let w :=
    snd (rawdb.WriteChainConfig sample.prefix h2
           (Some (sample.mkChainConfig 7)) (fresh (kv.MemDB ∅))) in
  modules.ConfigKey sample.prefix h1 <> modules.ConfigKey sample.prefix h2 /\
  fst (rawdb.ReadChainConfig sample.prefix h2
         (snd (rawdb.WriteChainConfig sample.prefix h1
                 (Some (sample.mkChainConfig 42)) w)))
  = (Some (sample.mkChainConfig 7), None).
Proof.
  intros h1 h2 w.
  destruct (WriteChainConfig_other_hash (RW := kv.memdb_RwTx) sample.prefix
              h1 h2 (Some (sample.mkChainConfig 42)) w) as (K & R).
  - intros E. apply (f_equal types.Bytes) in E. discriminate E.
  - split; [exact K|]. etrans; [exact R | reflexivity].
Defined.

(** C3 (overwrite). After [WriteChainConfig] of [c1] and then of [c2] under
    the same hash, both returning nil, [ReadChainConfig] returns [c2], and
    not [c1] unless the two are equal; the key holds the encoding of [c2]
    alone, and no lookup tells the store from one that was only ever given
    [c2]: one record per hash. *)
Theorem WriteChainConfig_overwrites
    {DB : Type} {RW : kv.RwTx DB} {ML : kv.MapLike DB}
    {ChainConfig : Type} {JC : json.Codec ChainConfig}
    {RE : json.RejectsEmpty ChainConfig}
    (configPrefix : bytes) (h : types.Hash) (c1 c2 : ChainConfig)
    (w w1 w2 : world DB) :
  json.lossless c2 ->
  rawdb.WriteChainConfig configPrefix h (Some c1) w = (None, w1) ->
  rawdb.WriteChainConfig configPrefix h (Some c2) w1 = (None, w2) ->
  fst (rawdb.ReadChainConfig configPrefix h w2) = (Some c2, None) /\
  (c1 <> c2 ->
   fst (rawdb.ReadChainConfig configPrefix h w2) <> (Some c1, None)) /\
  kv.GetOne (store w2) modules.ChainConfig (modules.ConfigKey configPrefix h)
  = (fst (json.Marshal c2), None) /\
  (forall w2',
     rawdb.WriteChainConfig configPrefix h (Some c2) w = (None, w2') ->
     forall table k,
       kv.GetOne (store w2) table k = kv.GetOne (store w2') table k).
Proof.
  intros Hc H1 H2.
  pose proof (Read_last_written configPrefix h w1 w2 c2 Hc H2) as R.
  split; [exact R|]. split; [rewrite R; congruence|].
  pose proof H2 as H2a.
  apply Write_stored_inv in H2a as (c' & data & [= <-] & Em & Ep & _).
  rewrite Em. cbn [fst].
  split; [by apply kv.get_put_eq in Ep|].
  intros w2' H3 table k.
  pose proof H3 as H3a.
  apply Write_stored_inv in H3a as (c' & data' & [= <-] & Em' & Ep' & _).
  rewrite Em in Em'. injection Em' as <-.
  destruct (decide ((modules.ChainConfig, modules.ConfigKey configPrefix h)
                    = (table, k))) as [[= <- <-]|Hne].
  - apply kv.get_put_eq in Ep, Ep'. by rewrite Ep, Ep'.
  - pose proof (Write_other_key configPrefix h w (Some c1) table k Hne) as A.
    pose proof (Write_other_key configPrefix h w1 (Some c2) table k Hne) as B.
    pose proof (Write_other_key configPrefix h w (Some c2) table k Hne) as C.
    rewrite H1 in A. rewrite H2 in B. rewrite H3 in C. cbn [snd] in A, B, C.
    by rewrite B, A, C.
Qed.

Lemma WriteChainConfig_overwrites_witness :
  let h := sample.hashOf x01 in
  let w := fresh (kv.MemDB ∅) in
  let w1 :=
    snd (rawdb.WriteChainConfig sample.prefix h (Some (sample.mkChainConfig 1)) w) in
  let w2 :=
    snd (rawdb.WriteChainConfig sample.prefix h (Some (sample.mkChainConfig 2)) w1) in
  fst (rawdb.ReadChainConfig sample.prefix h w2)
  = (Some (sample.mkChainConfig 2), None) /\
  fst (rawdb.ReadChainConfig sample.prefix h w2)
  <> (Some (sample.mkChainConfig 1), None) /\
  size (kv.cells (store w2)) = 1.
Proof.
  intros h w w1 w2.
  destruct (WriteChainConfig_overwrites (RW := kv.memdb_RwTx) sample.prefix h
              (sample.mkChainConfig 1) (sample.mkChainConfig 2) w w1 w2)
    as (R & N & _ & _).
  - apply sample_lossless.
  - reflexivity.
  - reflexivity.
  - split; [exact R|]. split; [apply N; discriminate|]. by vm_compute.
Defined.

(** C4 (not found). When the lookup under the key of [h] yields zero bytes
    and no error, [ReadChainConfig] returns a nil config and the error
    [ChainConfig are empty]. No other path builds that error: whenever a
    read returns it, in any store, the lookup gave zero bytes and no error,
    so it is told apart from a failed lookup and from a failed decode. *)
Theorem ReadChainConfig_not_found
    {DB : Type} {G : kv.Getter DB}
    {ChainConfig : Type} {JC : json.Codec ChainConfig}
    (configPrefix : bytes) (h : types.Hash) (w : world DB) :
  kv.GetOne (store w) modules.ChainConfig (modules.ConfigKey configPrefix h)
  = ([], None) ->
  fst (rawdb.ReadChainConfig (ChainConfig := ChainConfig) configPrefix h w)
  = (None, Some (errorString "ChainConfig are empty")) /\
  (forall e,
     errorString "ChainConfig are empty"
     <> fmt_Errorf_v "fetch ChainConfig from db ,error: " e /\
     errorString "ChainConfig are empty"
     <> fmt_Errorf_v "invalid chain config JSON err: " e) /\
  (forall (h' : types.Hash) (w' : world DB),
     snd (fst (rawdb.ReadChainConfig (ChainConfig := ChainConfig)
                 configPrefix h' w'))
     = Some (errorString "ChainConfig are empty") ->
     kv.GetOne (store w') modules.ChainConfig
       (modules.ConfigKey configPrefix h') = ([], None)).
Proof.
  intros E. split; [by apply Read_empty|]. split.
  - intros e. split; [apply empty_is_not_fetch | apply empty_is_not_decode].
  - intros h' w'. apply Read_empty_inv.
Qed.

Lemma ReadChainConfig_not_found_witness :
  fst (rawdb.ReadChainConfig (ChainConfig := sample.ChainConfig)
         sample.prefix (sample.hashOf x01) (fresh (kv.MemDB ∅)))
  = (None, Some (errorString "ChainConfig are empty")).
Proof.
  apply (ReadChainConfig_not_found (G := kv.memdb_Getter)
           (ChainConfig := sample.ChainConfig)
           sample.prefix (sample.hashOf x01) (fresh (kv.MemDB ∅))).
  reflexivity.
Defined.

(** C5 (nil config). [WriteChainConfig] with a nil config returns the error
    [invalid cfg] and leaves the store and the log of calls as they were: no
    call reached the store. Every later read returns what it would have
    returned before, and where the lookup under [h] gave zero bytes the
    read under [h] still reports the empty record. *)
Theorem WriteChainConfig_nil_rejected
    {DB : Type} {RW : kv.RwTx DB}
    {ChainConfig : Type} {JC : json.Codec ChainConfig}
    (configPrefix : bytes) (h : types.Hash) (w : world DB) :
  rawdb.WriteChainConfig (ChainConfig := ChainConfig) configPrefix h None w
  = (Some (errorString "invalid cfg"), w) /\
  (forall h',
     rawdb.ReadChainConfig (ChainConfig := ChainConfig) configPrefix h'
       (snd (rawdb.WriteChainConfig (ChainConfig := ChainConfig)
               configPrefix h None w))
     = rawdb.ReadChainConfig configPrefix h' w) /\
  (kv.GetOne (store w) modules.ChainConfig (modules.ConfigKey configPrefix h)
   = ([], None) ->
   fst (rawdb.ReadChainConfig (ChainConfig := ChainConfig) configPrefix h
          (snd (rawdb.WriteChainConfig (ChainConfig := ChainConfig)
                  configPrefix h None w)))
   = (None, Some (errorString "ChainConfig are empty"))).
Proof.
  split; [apply Write_nil|]. split; [done|].
  intros E. rewrite Write_nil. cbn [snd]. by apply Read_empty.
Qed.

Lemma WriteChainConfig_nil_rejected_witness :
  let w := fresh (kv.MemDB ∅) in
  let r :=
    rawdb.WriteChainConfig (ChainConfig := sample.ChainConfig)
      sample.prefix (sample.hashOf x01) None w in
  r = (Some (errorString "invalid cfg"), w) /\
  fst (rawdb.ReadChainConfig (ChainConfig := sample.ChainConfig)
         sample.prefix (sample.hashOf x01) (snd r))
  = (None, Some (errorString "ChainConfig are empty")).
Proof.
  intros w r.
  destruct (WriteChainConfig_nil_rejected (RW := kv.memdb_RwTx)
              (ChainConfig := sample.ChainConfig)
              sample.prefix (sample.hashOf x01) w) as (A & _ & B).
  split; [exact A|]. apply B. reflexivity.
Defined.

(** C6 (decode failure), as the code has it. When the bytes stored under
    the key of [h] are not empty and the JSON decoder rejects them,
    [ReadChainConfig] returns a nil config, also when the decoder had filled
    part of the record, and a new error whose text is
    [invalid chain config JSON err: ] followed by the text of the decoder's
    error: the text of the cause, printed with [%v], not the error value. *)
Theorem ReadChainConfig_decode_failure
    {DB : Type} {G : kv.Getter DB}
    {ChainConfig : Type} {JC : json.Codec ChainConfig}
    (configPrefix : bytes) (h : types.Hash) (w : world DB)
    (data : bytes) (partial : ChainConfig) (e : error) :
  kv.GetOne (store w) modules.ChainConfig (modules.ConfigKey configPrefix h)
  = (data, None) ->
  data <> [] ->
  json.Unmarshal data json.zero = (partial, Some e) ->
  fst (rawdb.ReadChainConfig configPrefix h w)
  = (None,
     Some (errorString ("invalid chain config JSON err: " +:+ Error e))).
Proof. intros E Hne U. by eapply Read_decode_error. Qed.

Lemma ReadChainConfig_decode_failure_witness :
  let h := sample.hashOf x01 in
  let k := (modules.ChainConfig, modules.ConfigKey sample.prefix h) in
  let stored := fst (json.Marshal (sample.mkChainConfig 42)) in
  let truncated := take (length stored - 1) stored in
  fst (rawdb.ReadChainConfig (ChainConfig := sample.ChainConfig)
         sample.prefix h (fresh (kv.MemDB {[ k := truncated ]})))
  = (None,
     Some (errorString
             "invalid chain config JSON err: unexpected end of JSON input")).
Proof.
  intros h k stored truncated.
  apply (ReadChainConfig_decode_failure (G := kv.memdb_Getter)
           sample.prefix h (fresh (kv.MemDB {[ k := truncated ]}))
           truncated (sample.mkChainConfig 0)
           (sample.syntaxError "unexpected end of JSON input")).
  - reflexivity.
  - discriminate.
  - reflexivity.
Defined.

(** C6, as first stated, fails: the error returned for rejected bytes does
    not wrap the decoder's error. It unwraps to nil, and two decoders whose
    errors differ and print the same text make [ReadChainConfig] return the
    same error, so that nothing computed from the returned error gives the
    decoder's error back. *)
Lemma ReadChainConfig_decode_failure_not_wrapped :
  let h := sample.hashOf x01 in
  let k := (modules.ChainConfig, modules.ConfigKey sample.prefix h) in
  let stored := fst (json.Marshal (sample.mkChainConfig 42)) in
  let truncated := take (length stored - 1) stored in
  let w := fresh (kv.MemDB {[ k := truncated ]}) in
  let cause (tag : N) :=
    snd (json.Unmarshal (Codec := retagged.Codec tag) truncated
           (sample.mkChainConfig 0)) in
  let returned (tag : N) :=
    snd (fst (rawdb.ReadChainConfig (H := retagged.Codec tag)
                sample.prefix h w)) in
  ~ (exists wraps : error -> option error,
       (returned 1%N ≫= wraps) = cause 1%N /\ is_Some (cause 1%N) /\
       (returned 99%N ≫= wraps) = cause 99%N /\ is_Some (cause 99%N)) /\
  (returned 1%N ≫= errors.Unwrap) = None /\
  cause 1%N = Some (foreignError 1 "unexpected end of JSON input").
Proof.
  intros h k stored truncated w cause returned.
  assert (returned 1%N = returned 99%N) as Esame by reflexivity.
  assert (cause 1%N <> cause 99%N) as Hdiff by discriminate.
  split; [|split; reflexivity].
  intros (wraps & E1 & _ & E99 & _).
  apply Hdiff. by rewrite <- E1, <- E99, Esame.
Qed.

(** C7 (errors are passed on), as the code has it. A failed lookup makes
    [ReadChainConfig] return a nil config and one new error, whose text is
    [fetch ChainConfig from db ,error: ] followed by the text of the store's
    error (the text of the cause, not the error value), after that one
    lookup. A failed encoding makes
    [WriteChainConfig] return the encoder's error itself with no call to the
    store. A failed upsert makes it return the store's error itself, after
    that one upsert and no other store call: the store is as the upsert
    left it. *)
Theorem accessor_errors_propagate
    {DB : Type} {RW : kv.RwTx DB}
    {ChainConfig : Type} {JC : json.Codec ChainConfig}
    (configPrefix : bytes) (h : types.Hash) (w : world DB) :
  let key := modules.ConfigKey configPrefix h in
  (forall data e,
     kv.GetOne (store w) modules.ChainConfig key = (data, Some e) ->
     rawdb.ReadChainConfig (ChainConfig := ChainConfig) configPrefix h w
     = ((None,
         Some (errorString ("fetch ChainConfig from db ,error: " +:+ Error e))),
        World (store w) (calls w ++ [CallGetOne modules.ChainConfig key]))) /\
  (forall (c : ChainConfig) data e,
     json.Marshal c = (data, Some e) ->
     rawdb.WriteChainConfig configPrefix h (Some c) w
     = (Some e,
        World (store w)
          (calls w ++ [CallLogError "Failed to JSON encode chain config" e]))) /\
  (forall (c : ChainConfig) data db' e,
     json.Marshal c = (data, None) ->
     kv.Put (store w) modules.ChainConfig key data = (db', Some e) ->
     rawdb.WriteChainConfig configPrefix h (Some c) w
     = (Some e,
        World db'
          (calls w ++ [CallPut modules.ChainConfig key data;
                       CallLogError "Failed to store chain config" e]))).
Proof.
  intros key. split; [|split].
  - intros data e E. apply injective_projections.
    + by eapply Read_fetch_error.
    + apply Read_world.
  - intros c data e E. by eapply Write_encode_error.
  - intros c data db' e E P.
    erewrite Write_put_error by eassumption. by rewrite <- app_assoc.
Qed.

Lemma accessor_errors_propagate_witness :
  let h := sample.hashOf x01 in
  let key := modules.ConfigKey sample.prefix h in
  let closed := foreignError 7 "tx closed" in
  let full := foreignError 8 "MDBX_MAP_FULL" in
  let rd := kv.FaultyDB (kv.MemDB ∅) (Some closed) None in
  let wr := kv.FaultyDB (kv.MemDB ∅) None (Some full) in
  rawdb.ReadChainConfig (ChainConfig := sample.ChainConfig)
    sample.prefix h (fresh rd)
  = ((None, Some (errorString "fetch ChainConfig from db ,error: tx closed")),
     World rd [CallGetOne modules.ChainConfig key]) /\
  rawdb.WriteChainConfig sample.prefix h (Some sample.mkUnencodable) (fresh wr)
  = (Some (foreignError 2 "json: unsupported type"),
     World wr [CallLogError "Failed to JSON encode chain config"
                 (foreignError 2 "json: unsupported type")]) /\
  rawdb.WriteChainConfig sample.prefix h (Some (sample.mkChainConfig 42))
    (fresh wr)
  = (Some full,
     World wr [CallPut modules.ChainConfig key
                 (fst (json.Marshal (sample.mkChainConfig 42)));
               CallLogError "Failed to store chain config" full]).
Proof.
  intros h key closed full rd wr. split; [|split].
  - destruct (accessor_errors_propagate (RW := kv.faultydb_RwTx)
                (ChainConfig := sample.ChainConfig) sample.prefix h (fresh rd))
      as (A & _ & _).
    apply (A [] closed). reflexivity.
  - destruct (accessor_errors_propagate (RW := kv.faultydb_RwTx)
                (ChainConfig := sample.Unencodable) sample.prefix h (fresh wr))
      as (_ & B & _).
    apply (B sample.mkUnencodable []). reflexivity.
  - destruct (accessor_errors_propagate (RW := kv.faultydb_RwTx)
                (ChainConfig := sample.ChainConfig) sample.prefix h (fresh wr))
      as (_ & _ & C).
    apply C; reflexivity.
Defined.

(** C7, as first stated, fails on the lookup path: the error
    [ReadChainConfig] returns for a failed lookup does not have the store's
    error attached. It unwraps to nil, and two store errors that differ and
    print the same text make it return the same error, so that nothing
    computed from the returned error gives the store's error back. *)
Lemma ReadChainConfig_fetch_error_drops_cause :
  let h := sample.hashOf x01 in
  let closed (tag : N) := foreignError tag "tx closed" in
  let returned (tag : N) :=
    snd (fst (rawdb.ReadChainConfig (ChainConfig := sample.ChainConfig)
                sample.prefix h
                (fresh (kv.FaultyDB (kv.MemDB ∅) (Some (closed tag)) None)))) in
  ~ (exists attached : error -> option error,
       (returned 7%N ≫= attached) = Some (closed 7%N) /\
       (returned 99%N ≫= attached) = Some (closed 99%N)) /\
  (returned 7%N ≫= errors.Unwrap) = None /\
  returned 7%N
  = Some (errorString "fetch ChainConfig from db ,error: tx closed").
Proof.
  intros h closed returned.
  assert (returned 7%N = returned 99%N) as Esame by reflexivity.
  split; [|split; reflexivity].
  intros (attached & E7 & E99).
  rewrite Esame, E99 in E7. discriminate E7.
Qed.

(** C8 (idempotence). Writing the same record under the same hash twice,
    both writes returning nil, leaves a store that no lookup tells from the
    store after the first write, and [ReadChainConfig] returns the record.
    On the in-memory store the two states are equal, whatever the write is
    given: nothing accumulates. *)
Theorem WriteChainConfig_idempotent
    {ChainConfig : Type} {JC : json.Codec ChainConfig}
    {RE : json.RejectsEmpty ChainConfig}
    (configPrefix : bytes) (h : types.Hash) :
  (forall {DB : Type} {RW : kv.RwTx DB} {ML : kv.MapLike DB}
          (c : ChainConfig) (w w1 w2 : world DB),
     json.lossless c ->
     rawdb.WriteChainConfig configPrefix h (Some c) w = (None, w1) ->
     rawdb.WriteChainConfig configPrefix h (Some c) w1 = (None, w2) ->
     (forall table k,
        kv.GetOne (store w2) table k = kv.GetOne (store w1) table k) /\
     fst (rawdb.ReadChainConfig configPrefix h w2) = (Some c, None)) /\
  (forall (cfg : option ChainConfig) (w : world kv.memdb),
     let once := snd (rawdb.WriteChainConfig configPrefix h cfg w) in
     let twice := snd (rawdb.WriteChainConfig configPrefix h cfg once) in
     store twice = store once).
Proof.
  split.
  - intros DB RW ML c w w1 w2 Hc H1 H2.
    split; [|by eapply Read_last_written].
    intros table k.
    destruct (decide ((modules.ChainConfig, modules.ConfigKey configPrefix h)
                      = (table, k))) as [[= <- <-]|Hne].
    + apply Write_stored_inv in H1 as (c1 & d1 & [= <-] & Em1 & Ep1 & _).
      apply Write_stored_inv in H2 as (c2 & d2 & [= <-] & Em2 & Ep2 & _).
      rewrite Em1 in Em2. injection Em2 as <-.
      apply kv.get_put_eq in Ep1, Ep2. by rewrite Ep1, Ep2.
    + pose proof (Write_other_key configPrefix h w1 (Some c) table k Hne) as B.
      by rewrite H2 in B.
  - intros [c|] w; [|done]. cbv zeta.
    unfold rawdb.WriteChainConfig, rawdb.ConfigKey, mbind, State_bind, mret,
      State_ret, db_Put, log_Error, record.
    destruct (json.Marshal c) as [data [e|]]; [done|].
    cbn. by rewrite insert_insert_eq.
Qed.

Lemma WriteChainConfig_idempotent_witness :
  let h := sample.hashOf x01 in
  let c := sample.mkChainConfig 42 in
  let w := fresh (kv.MemDB ∅) in
  let once := snd (rawdb.WriteChainConfig sample.prefix h (Some c) w) in
  let twice := snd (rawdb.WriteChainConfig sample.prefix h (Some c) once) in
  fst (rawdb.ReadChainConfig sample.prefix h twice) = (Some c, None) /\
  store twice = store once /\
  size (kv.cells (store twice)) = 1.
Proof.
  intros h c w once twice.
  destruct (WriteChainConfig_idempotent (ChainConfig := sample.ChainConfig)
              sample.prefix h) as (A & B).
  destruct (A kv.memdb kv.memdb_RwTx memdb_MapLike c w once twice) as (_ & R).
  - apply sample_lossless.
  - reflexivity.
  - reflexivity.
  - split; [exact R|]. split; [apply (B (Some c) w)|]. by vm_compute.
Defined.

(** C9 (config or error, never both, never neither). For every store and
    hash, [ReadChainConfig] returns either a config with a nil error or a
    nil config with an error. On the in-memory store a key that is absent
    and a key that holds zero bytes give the same result: a nil config and
    the error [ChainConfig are empty]. *)
Theorem ReadChainConfig_config_xor_error
    {ChainConfig : Type} {JC : json.Codec ChainConfig}
    (configPrefix : bytes) (h : types.Hash) :
  (forall {DB : Type} {G : kv.Getter DB} (w : world DB),
     (exists c,
        fst (rawdb.ReadChainConfig (ChainConfig := ChainConfig)
               configPrefix h w) = (Some c, None)) \/
     (exists e,
        fst (rawdb.ReadChainConfig (ChainConfig := ChainConfig)
               configPrefix h w) = (None, Some e))) /\
  (forall (m : gmap (string * bytes) bytes),
     let k := (modules.ChainConfig, modules.ConfigKey configPrefix h) in
     fst (rawdb.ReadChainConfig (ChainConfig := ChainConfig)
            configPrefix h (fresh (kv.MemDB (delete k m))))
     = (None, Some (errorString "ChainConfig are empty")) /\
     fst (rawdb.ReadChainConfig (ChainConfig := ChainConfig)
            configPrefix h (fresh (kv.MemDB (<[k := []]> m))))
     = (None, Some (errorString "ChainConfig are empty"))).
Proof.
  split.
  - intros DB G w.
    unfold rawdb.ReadChainConfig, mbind, State_bind, mret, State_ret,
      db_GetOne.
    destruct (kv.GetOne _ _ _) as [data [e|]]; [right; by eexists|].
    destruct (Nat.eqb _ _); [right; by eexists|].
    destruct (json.Unmarshal _ _) as [c [e|]];
      [right; by eexists | left; by eexists].
  - intros m k. split; apply Read_empty; cbn.
    + by rewrite lookup_delete_eq.
    + by rewrite lookup_insert_eq.
Qed.

(** ** The keystore directory *)

Section KeyStoreFacts.

Context {FS : Type} {F : os.Filesystem FS}.

Lemma KeyDirConfig_absolute (c : conf.NodeConfig) (fs : FS) :
  os.filepath_IsAbs (conf.KeyStoreDir c) = true ->
  conf.KeyDirConfig c fs = (conf.KeyStoreDir c, None).
Proof. intros E. unfold conf.KeyDirConfig. by rewrite E. Qed.

Lemma KeyDirConfig_empty_iff {PL : os.PathLaws FS} (c : conf.NodeConfig)
    (fs : FS) :
  conf.KeyDirConfig c fs = ("", None)
  <-> conf.DataDir c = "" /\ conf.KeyStoreDir c = "".
Proof.
  unfold conf.KeyDirConfig. split.
  - destruct (os.filepath_IsAbs (conf.KeyStoreDir c)) eqn:A.
    { intros [= E]. rewrite E, os.IsAbs_empty in A. discriminate. }
    destruct (String.eqb_spec (conf.DataDir c) "") as [D|D]; cbn [negb].
    + destruct (String.eqb_spec (conf.KeyStoreDir c) "") as [K|K];
        cbn [negb]; [done|].
      intros E. by apply os.Abs_nonempty in E.
    + destruct (String.eqb_spec (conf.KeyStoreDir c) "") as [K|K].
      * intros [= E]. by apply os.Join_nonempty in E.
      * intros E. by apply os.Abs_nonempty in E.
  - intros [-> ->]. by rewrite os.IsAbs_empty.
Qed.

(** The three ways [getKeyStoreDir] ends, by what [KeyDirConfig] gives. *)
Lemma getKeyStoreDir_resolve_error (c : conf.NodeConfig) (fs : FS) d e :
  conf.KeyDirConfig c fs = (d, Some e) ->
  conf.getKeyStoreDir c fs = (("", false, Some e), fs).
Proof.
  intros E. unfold conf.getKeyStoreDir, mbind, State_bind, reads.
  by rewrite E.
Qed.

Lemma getKeyStoreDir_resolved (c : conf.NodeConfig) (fs : FS) d :
  conf.KeyDirConfig c fs = (d, None) -> d <> "" ->
  conf.getKeyStoreDir c fs
  = match os.os_MkdirAll fs d 448 with
    | (Some e, fs') => (("", false, Some e), fs')
    | (None, fs') => ((d, false, None), fs')
    end.
Proof.
  intros E Hd.
  unfold conf.getKeyStoreDir, mbind, State_bind, mret, State_ret, reads,
    calls_on.
  rewrite E. destruct (String.eqb_spec d ""); [done|].
  by destruct (os.os_MkdirAll fs d 448) as [[e|] fs'].
Qed.

Lemma getKeyStoreDir_temporary (c : conf.NodeConfig) (fs : FS) :
  conf.KeyDirConfig c fs = ("", None) ->
  conf.getKeyStoreDir c fs
  = match os.os_MkdirTemp fs "" "N42-keystore" with
    | ((_, Some e), fs1) => (("", false, Some e), fs1)
    | ((d, None), fs1) =>
        match os.os_MkdirAll fs1 d 448 with
        | (Some e, fs') => (("", false, Some e), fs')
        | (None, fs') => ((d, true, None), fs')
        end
    end.
Proof.
  intros E.
  unfold conf.getKeyStoreDir, mbind, State_bind, mret, State_ret, reads,
    calls_on.
  rewrite E. cbn.
  destruct (os.os_MkdirTemp fs "" "N42-keystore") as [[d [e|]] fs1]; [done|].
  by destruct (os.os_MkdirAll fs1 d 448) as [[e|] fs'].
Qed.

End KeyStoreFacts.

(** C10 (keystore directory), as the code has it. [KeyDirConfig] returns
    [KeyStoreDir] itself and a nil error when it is an absolute path, and
    resolves to the empty directory exactly when [DataDir] and [KeyStoreDir]
    are both empty. Whenever [getKeyStoreDir] returns a nil error,
    [isEphemeral] is true exactly in that case, and the directory returned
    is then the one [os.MkdirTemp] made; whenever it returns an error, the
    directory is empty and [isEphemeral] is false. *)
Theorem getKeyStoreDir_ephemeral
    {FS : Type} {F : os.Filesystem FS} {PL : os.PathLaws FS}
    (c : conf.NodeConfig) (fs : FS) :
  (os.filepath_IsAbs (conf.KeyStoreDir c) = true ->
   conf.KeyDirConfig c fs = (conf.KeyStoreDir c, None)) /\
  (conf.KeyDirConfig c fs = ("", None)
   <-> conf.DataDir c = "" /\ conf.KeyStoreDir c = "") /\
  (forall keydir isEphemeral fs',
     conf.getKeyStoreDir c fs = ((keydir, isEphemeral, None), fs') ->
     (isEphemeral = true <-> conf.KeyDirConfig c fs = ("", None)) /\
     (isEphemeral = true ->
      exists fs1,
        os.os_MkdirTemp fs "" "N42-keystore" = ((keydir, None), fs1) /\
        os.os_MkdirAll fs1 keydir 448 = (None, fs'))) /\
  (forall keydir isEphemeral e fs',
     conf.getKeyStoreDir c fs = ((keydir, isEphemeral, Some e), fs') ->
     keydir = "" /\ isEphemeral = false).
Proof.
  split; [apply KeyDirConfig_absolute|].
  split; [apply KeyDirConfig_empty_iff|].
  destruct (conf.KeyDirConfig c fs) as [d [e0|]] eqn:K.
  - rewrite (getKeyStoreDir_resolve_error c fs d e0 K).
    split; [intros ? ? ? [=] | by intros ? ? ? ? [= <- <- _ _]].
  - destruct (decide (d = "")) as [->|Hd].
    + rewrite (getKeyStoreDir_temporary c fs K).
      destruct (os.os_MkdirTemp fs "" "N42-keystore") as [[t [e|]] fs1].
      { split; [intros ? ? ? [=] | by intros ? ? ? ? [= <- <- _ _]]. }
      destruct (os.os_MkdirAll fs1 t 448) as [[e|] fs2] eqn:A.
      { split; [intros ? ? ? [=] | by intros ? ? ? ? [= <- <- _ _]]. }
      split; [|intros ? ? ? ? [=]].
      intros keydir isEphemeral fs' [= <- <- <-].
      split; [done|]. intros _. by exists fs1.
    + rewrite (getKeyStoreDir_resolved c fs d K Hd).
      destruct (os.os_MkdirAll fs d 448) as [[e|] fs2].
      { split; [intros ? ? ? [=] | by intros ? ? ? ? [= <- <- _ _]]. }
      split; [|intros ? ? ? ? [=]].
      intros keydir isEphemeral fs' [= <- <- <-].
      split; [|done]. split; [done|]. intros [= E]. by destruct Hd.
Qed.

Lemma getKeyStoreDir_ephemeral_witness :
  let c := conf.withDirs "" "" in
  let fs := os.UnixFS "home/n42" [] true 7 in
  conf.KeyDirConfig (conf.withDirs "data" "/var/keys") fs = ("/var/keys", None) /\
  conf.KeyDirConfig c fs = ("", None) /\
  fst (conf.getKeyStoreDir c fs) = ("/tmp/N42-keystore7", true, None) /\
  os.os_MkdirTemp fs "" "N42-keystore"
  = (("/tmp/N42-keystore7", None),
     os.UnixFS "home/n42" ["/tmp/N42-keystore7"] true 8).
Proof.
  intros c fs.
  destruct (getKeyStoreDir_ephemeral (F := os.unixfs_Filesystem)
              (conf.withDirs "data" "/var/keys") fs) as (A & _).
  destruct (getKeyStoreDir_ephemeral (F := os.unixfs_Filesystem) c fs)
    as (_ & B & C & _).
  split; [apply A; reflexivity|].
  split; [apply B; split; reflexivity|].
  destruct (C "/tmp/N42-keystore7" true
              (os.UnixFS "home/n42" ["/tmp/N42-keystore7"] true 8))
    as (_ & D); [reflexivity|].
  split; [reflexivity|].
  destruct (D eq_refl) as (fs1 & T & _). rewrite T. f_equal.
  cbn in T. by injection T as <-.
Defined.

(** C10, as first stated, fails: with both directories empty the resolved
    directory is empty, yet when the temporary directory cannot be made
    [getKeyStoreDir] returns [isEphemeral = false] (with the error). *)
Lemma getKeyStoreDir_ephemeral_not_iff :
  let c := conf.withDirs "" "" in
  let fs := os.UnixFS "home/n42" [] false 7 in
  let isEphemeral := snd (fst (fst (conf.getKeyStoreDir c fs))) in
  ~ (isEphemeral = true
     <-> (conf.KeyDirConfig c fs = ("", None) /\
          conf.DataDir c = "" /\ conf.KeyStoreDir c = "")).
Proof.
  intros c fs isEphemeral [_ Hback].
  assert (isEphemeral = true) as E by (apply Hback; by vm_compute).
  vm_compute in E. discriminate E.
Qed.


(** * Further properties of the accessors *)

(** What each path of the accessors adds to the log of calls. *)
Section Added.

Context {DB : Type} {ChainConfig : Type} {JC : json.Codec ChainConfig}.
Variable configPrefix : bytes.

Lemma drop_own_length {A} (l k : list A) : drop (length l) (l ++ k) = k.
Proof. by rewrite drop_app_length. Qed.

Lemma added_Read {G : kv.Getter DB} (h : types.Hash) (w : world DB) :
  trace.added
    (rawdb.ReadChainConfig (ChainConfig := ChainConfig) configPrefix h) w
  = [CallGetOne modules.ChainConfig (modules.ConfigKey configPrefix h)].
Proof.
  unfold trace.added. rewrite Read_world. cbn. apply drop_own_length.
Qed.

(** The whole of [WriteChainConfig], as one case analysis on what the
    encoder and the store return. *)
Lemma Write_cases {RW : kv.RwTx DB} (h : types.Hash)
    (cfg : option ChainConfig) (w : world DB) :
  let key := modules.ConfigKey configPrefix h in
  (cfg = None /\
   rawdb.WriteChainConfig configPrefix h cfg w
   = (Some (fmt_Errorf "invalid cfg"), w)) \/
  (exists c data e,
     cfg = Some c /\ json.Marshal c = (data, Some e) /\
     rawdb.WriteChainConfig configPrefix h cfg w
     = (Some e,
        World (store w)
          (calls w ++ [CallLogError "Failed to JSON encode chain config" e]))) \/
  (exists c data db' e,
     cfg = Some c /\ json.Marshal c = (data, None) /\
     kv.Put (store w) modules.ChainConfig key data = (db', Some e) /\
     rawdb.WriteChainConfig configPrefix h cfg w
     = (Some e,
        World db'
          (calls w ++ [CallPut modules.ChainConfig key data;
                       CallLogError "Failed to store chain config" e]))) \/
  (exists c data db',
     cfg = Some c /\ json.Marshal c = (data, None) /\
     kv.Put (store w) modules.ChainConfig key data = (db', None) /\
     rawdb.WriteChainConfig configPrefix h cfg w
     = (None, World db' (calls w ++ [CallPut modules.ChainConfig key data]))).
Proof.
  intros key. destruct cfg as [c|]; [|by left].
  destruct (json.Marshal c) as [data [e|]] eqn:Em.
  { right; left. exists c, data, e. repeat split; [done|].
    by eapply Write_encode_error. }
  destruct (kv.Put (store w) modules.ChainConfig key data) as [db' [e|]] eqn:Ep.
  - right; right; left. exists c, data, db', e. repeat split; try done.
    erewrite Write_put_error by eassumption. by rewrite <- app_assoc.
  - right; right; right. exists c, data, db'. repeat split; try done.
    by eapply Write_stored.
Qed.

End Added.

(** X1 (a read is one lookup). On every path, failed or not,
    [ReadChainConfig] leaves the store as it was and adds to the log exactly
    one call: the lookup in table [ChainConfig] under the key of the hash;
    it never logs. A read therefore does not change what a later read, under
    any hash, returns. *)
Theorem ReadChainConfig_single_lookup
    {DB : Type} {G : kv.Getter DB}
    {ChainConfig : Type} {JC : json.Codec ChainConfig}
    (configPrefix : bytes) (h : types.Hash) (w : world DB) :
  let after :=
    snd (rawdb.ReadChainConfig (ChainConfig := ChainConfig) configPrefix h w) in
  store after = store w /\
  calls after
  = calls w ++ [CallGetOne modules.ChainConfig
                  (modules.ConfigKey configPrefix h)] /\
  forall h',
    fst (rawdb.ReadChainConfig (ChainConfig := ChainConfig)
           configPrefix h' after)
    = fst (rawdb.ReadChainConfig configPrefix h' w).
Proof.
  intros after. subst after. rewrite Read_world.
  split; [done|]. split; [done|].
  intros h'. by apply Read_same_lookup.
Qed.

(** X2 (when a write succeeds). [WriteChainConfig] returns nil exactly when
    the config is not nil, the encoder returns no error and the upsert of
    the encoded bytes under the key of the hash returns no error; the store
    is then the one that upsert left and the log has grown by that one
    upsert. *)
Theorem WriteChainConfig_nil_error_iff
    {DB : Type} {RW : kv.RwTx DB}
    {ChainConfig : Type} {JC : json.Codec ChainConfig}
    (configPrefix : bytes) (h : types.Hash) (cfg : option ChainConfig)
    (w w' : world DB) :
  rawdb.WriteChainConfig configPrefix h cfg w = (None, w')
  <-> exists c data,
        cfg = Some c /\ json.Marshal c = (data, None) /\
        kv.Put (store w) modules.ChainConfig
          (modules.ConfigKey configPrefix h) data = (store w', None) /\
        calls w'
        = calls w ++ [CallPut modules.ChainConfig
                        (modules.ConfigKey configPrefix h) data].
Proof.
  split; [apply Write_stored_inv|].
  intros (c & data & -> & Em & Ep & Ec).
  erewrite Write_stored by eassumption.
  destruct w' as [db' l']. cbn in Ec. by rewrite Ec.
Qed.

Lemma WriteChainConfig_nil_error_iff_witness :
  let h := sample.hashOf x01 in
  let c := sample.mkChainConfig 42 in
  let key := modules.ConfigKey sample.prefix h in
  let data := fst (json.Marshal c) in
  rawdb.WriteChainConfig sample.prefix h (Some c) (fresh (kv.MemDB ∅))
  = (None,
     World (kv.MemDB {[ (modules.ChainConfig, key) := data ]})
       [CallPut modules.ChainConfig key data]).
Proof.
  intros h c key data.
  apply (WriteChainConfig_nil_error_iff (RW := kv.memdb_RwTx)).
  exists c, data. repeat split; reflexivity.
Defined.

(** X3 (a write never reads, and puts at most once). Whatever it is given
    and however it ends, [WriteChainConfig] makes no lookup, and at most one
    upsert; an upsert it makes is in table [ChainConfig] under the key of
    the hash. *)
Theorem WriteChainConfig_store_calls
    {DB : Type} {RW : kv.RwTx DB}
    {ChainConfig : Type} {JC : json.Codec ChainConfig}
    (configPrefix : bytes) (h : types.Hash) (cfg : option ChainConfig)
    (w : world DB) :
  let l := trace.added (rawdb.WriteChainConfig configPrefix h cfg) w in
  calls (snd (rawdb.WriteChainConfig configPrefix h cfg w)) = calls w ++ l /\
  List.filter trace.is_lookup l = [] /\
  (List.filter trace.is_put l = [] \/
   exists data,
     List.filter trace.is_put l
     = [CallPut modules.ChainConfig (modules.ConfigKey configPrefix h) data]).
Proof.
  intros l. subst l. unfold trace.added.
  destruct (Write_cases configPrefix h cfg w)
    as [(_ & ->)|[(c & d & e & _ & _ & ->)|[(c & d & db' & e & _ & _ & _ & ->)
       |(c & d & db' & _ & _ & _ & ->)]]]; cbn [snd calls].
  - rewrite drop_all, app_nil_r. by repeat split; [left].
  - rewrite drop_own_length. by repeat split; [left].
  - rewrite drop_own_length. repeat split. right. by exists d.
  - rewrite drop_own_length. repeat split. right. by exists d.
Qed.

(** X4 (what a write logs). [WriteChainConfig] logs exactly the errors of
    the encoder and of the store: when it returns such an error it has
    logged it once, the very error it returns, as its last call; a nil
    config is refused without a log entry, and a write that returns nil
    logs nothing. *)
Theorem WriteChainConfig_logs_returned_error
    {DB : Type} {RW : kv.RwTx DB}
    {ChainConfig : Type} {JC : json.Codec ChainConfig}
    (configPrefix : bytes) (h : types.Hash) (cfg : option ChainConfig)
    (w : world DB) :
  let r := fst (rawdb.WriteChainConfig configPrefix h cfg w) in
  let l := trace.added (rawdb.WriteChainConfig configPrefix h cfg) w in
  match cfg, r with
  | None, _ => r = Some (errorString "invalid cfg") /\ l = []
  | Some _, None => List.filter trace.is_log l = []
  | Some _, Some e =>
      exists msg,
        List.filter trace.is_log l = [CallLogError msg e] /\
        last l = Some (CallLogError msg e)
  end.
Proof.
  intros r l. subst r l. unfold trace.added.
  destruct (Write_cases configPrefix h cfg w)
    as [(-> & ->)|[(c & d & e & -> & _ & ->)|[(c & d & db' & e & -> & _ & _ & ->)
       |(c & d & db' & -> & _ & _ & ->)]]]; cbn [fst snd calls].
  - by rewrite drop_all.
  - rewrite drop_own_length. by eexists.
  - rewrite drop_own_length. by eexists.
  - by rewrite drop_own_length.
Qed.

(** X5 (what is read back is what the decoder makes of the encoding). On a
    store that behaves as a key-value map, after a [WriteChainConfig] that
    returned nil, [ReadChainConfig] under the same hash returns what the
    decoder makes of the bytes the encoder gave: the write compares and
    checks nothing. Zero encoded bytes read back as the empty-record error,
    rejected bytes as the decode error, and accepted bytes as the record the
    decoder built, equal to the one written or not. *)
Theorem ReadChainConfig_after_write_decodes
    {DB : Type} {RW : kv.RwTx DB} {ML : kv.MapLike DB}
    {ChainConfig : Type} {JC : json.Codec ChainConfig}
    (configPrefix : bytes) (h : types.Hash) (c : ChainConfig)
    (w w' : world DB) (data : bytes) :
  rawdb.WriteChainConfig configPrefix h (Some c) w = (None, w') ->
  json.Marshal c = (data, None) ->
  fst (rawdb.ReadChainConfig configPrefix h w')
  = match data, json.Unmarshal data json.zero with
    | [], _ => (None, Some (errorString "ChainConfig are empty"))
    | _ :: _, (_, Some e) =>
        (None,
         Some (errorString ("invalid chain config JSON err: " +:+ Error e)))
    | _ :: _, (c', None) => (Some c', None)
    end.
Proof.
  intros Hw Em.
  destruct (Write_then_lookup configPrefix h w w' c Hw) as (data' & Em' & Eg).
  rewrite Em in Em'. injection Em' as <-.
  destruct data as [|b data].
  - by apply Read_empty.
  - destruct (json.Unmarshal (b :: data) json.zero) as [c' [e|]] eqn:U.
    + by eapply Read_decode_error.
    + by eapply Read_decoded.
Qed.

Lemma ReadChainConfig_after_write_decodes_witness :
  let h := sample.hashOf x01 in
  let c := sample.mkChainConfig 42 in
  let w := fresh (kv.MemDB ∅) in
  fst (rawdb.ReadChainConfig sample.prefix h
         (snd (rawdb.WriteChainConfig sample.prefix h (Some c) w)))
  = (Some c, None).
Proof.
  intros h c w.
  etrans.
  - apply (ReadChainConfig_after_write_decodes (RW := kv.memdb_RwTx)
             sample.prefix h c w
             (snd (rawdb.WriteChainConfig sample.prefix h (Some c) w))
             (fst (json.Marshal c))); reflexivity.
  - reflexivity.
Defined.

(** X6 (other tables). On a store that behaves as a key-value map,
    [WriteChainConfig], whatever it is given and however it ends, leaves
    every key of every table other than [ChainConfig] as it was. *)
Theorem WriteChainConfig_other_tables
    {DB : Type} {RW : kv.RwTx DB} {ML : kv.MapLike DB}
    {ChainConfig : Type} {JC : json.Codec ChainConfig}
    (configPrefix : bytes) (h : types.Hash) (cfg : option ChainConfig)
    (w : world DB) (table : string) (k : bytes) :
  table <> modules.ChainConfig ->
  kv.GetOne (store (snd (rawdb.WriteChainConfig configPrefix h cfg w))) table k
  = kv.GetOne (store w) table k.
Proof.
  intros Hne. apply Write_other_key; [exact ML|]. congruence.
Qed.

Lemma WriteChainConfig_other_tables_witness :
  let h := sample.hashOf x01 in
  let key := modules.ConfigKey sample.prefix h in
  let w := fresh (kv.MemDB {[ ("Header", key) := [x2a] ]}) in
  kv.GetOne
    (store (snd (rawdb.WriteChainConfig sample.prefix h
                   (Some (sample.mkChainConfig 42)) w)))
    "Header" key
  = ([x2a], None).
Proof.
  intros h key w.
  etrans.
  - apply (WriteChainConfig_other_tables (RW := kv.memdb_RwTx)
             sample.prefix h (Some (sample.mkChainConfig 42)) w "Header" key).
    discriminate.
  - reflexivity.
Defined.

(** X7 (the error tells the step). The text of the error [ReadChainConfig]
    returns tells which step failed, and carries the text of the cause: an
    error [fetch ChainConfig from db ,error: ] + [t] is returned only when
    the lookup failed with an error of text [t]; an error
    [invalid chain config JSON err: ] + [t] only when the lookup gave
    non-empty bytes that the decoder rejected with an error of text [t]. *)
Theorem ReadChainConfig_error_names_step
    {DB : Type} {G : kv.Getter DB}
    {ChainConfig : Type} {JC : json.Codec ChainConfig}
    (configPrefix : bytes) (h : types.Hash) (w : world DB) (t : string) :
  let key := modules.ConfigKey configPrefix h in
  let err :=
    snd (fst (rawdb.ReadChainConfig (ChainConfig := ChainConfig)
                configPrefix h w)) in
  (err = Some (errorString ("fetch ChainConfig from db ,error: " +:+ t)) ->
   exists data e,
     kv.GetOne (store w) modules.ChainConfig key = (data, Some e) /\
     Error e = t) /\
  (err = Some (errorString ("invalid chain config JSON err: " +:+ t)) ->
   exists data partial e,
     kv.GetOne (store w) modules.ChainConfig key = (data, None) /\
     data <> [] /\
     json.Unmarshal data json.zero = (partial, Some e) /\
     Error e = t).
Proof.
  intros key err. subst key err.
  unfold rawdb.ReadChainConfig, rawdb.ConfigKey, mbind, State_bind, mret,
    State_ret, db_GetOne.
  destruct (kv.GetOne _ _ _) as [data [e|]]; cbn [fst snd].
  { split; [|discriminate]. intros [= E]. by exists data, e. }
  destruct data as [|b data]; cbn [len length Nat.eqb fst snd].
  { split; discriminate. }
  destruct (json.Unmarshal _ _) as [c [e|]] eqn:U; cbn [fst snd].
  - split; [discriminate|]. intros [= E]. exists (b :: data), c, e.
    by repeat split.
  - split; discriminate.
Qed.

Lemma ReadChainConfig_error_names_step_witness :
  let h := sample.hashOf x01 in
  let closed := foreignError 7 "tx closed" in
  let rd := fresh (kv.FaultyDB (kv.MemDB ∅) (Some closed) None) in
  exists data e,
    kv.GetOne (store rd) modules.ChainConfig
      (modules.ConfigKey sample.prefix h) = (data, Some e) /\
    Error e = "tx closed".
Proof.
  intros h closed rd.
  destruct (ReadChainConfig_error_names_step (G := kv.faultydb_Getter)
              (ChainConfig := sample.ChainConfig) sample.prefix h rd
              "tx closed") as (A & _).
  apply A. reflexivity.
Defined.

(** X8 (when a read succeeds). [ReadChainConfig] returns a config and a nil
    error exactly when the lookup returned no error and bytes that are not
    empty and that the decoder accepts; the config is then the record the
    decoder built from a zero value. *)
Theorem ReadChainConfig_config_iff
    {DB : Type} {G : kv.Getter DB}
    {ChainConfig : Type} {JC : json.Codec ChainConfig}
    (configPrefix : bytes) (h : types.Hash) (w : world DB) (c : ChainConfig) :
  fst (rawdb.ReadChainConfig configPrefix h w) = (Some c, None)
  <-> exists data,
        kv.GetOne (store w) modules.ChainConfig
          (modules.ConfigKey configPrefix h) = (data, None) /\
        data <> [] /\
        json.Unmarshal data json.zero = (c, None).
Proof.
  split.
  - unfold rawdb.ReadChainConfig, rawdb.ConfigKey, mbind, State_bind, mret,
      State_ret, db_GetOne.
    destruct (kv.GetOne _ _ _) as [data [e|]]; cbn [fst snd]; [discriminate|].
    destruct data as [|b data]; cbn [len length Nat.eqb fst snd];
      [discriminate|].
    destruct (json.Unmarshal _ _) as [c' [e|]] eqn:U; cbn [fst snd];
      [discriminate|].
    intros [= <-]. by exists (b :: data).
  - intros (data & Eg & Hne & U). by eapply Read_decoded.
Qed.

Lemma ReadChainConfig_config_iff_witness :
  let h := sample.hashOf x01 in
  let c := sample.mkChainConfig 42 in
  let k := (modules.ChainConfig, modules.ConfigKey sample.prefix h) in
  fst (rawdb.ReadChainConfig sample.prefix h
         (fresh (kv.MemDB {[ k := fst (json.Marshal c) ]})))
  = (Some c, None).
Proof.
  intros h c k.
  apply (ReadChainConfig_config_iff (G := kv.memdb_Getter)).
  exists (fst (json.Marshal c)).
  split; [reflexivity|]. split; [discriminate | reflexivity].
Defined.

(** * Further properties of the keystore directory *)

(** X9 (a configured [KeyStoreDir] wins). When [KeyStoreDir] is not empty,
    [KeyDirConfig] does not look at [DataDir]: it returns [KeyStoreDir]
    itself if that is absolute and [filepath.Abs] of it otherwise, so two
    configs with the same [KeyStoreDir] resolve alike. *)
Theorem KeyDirConfig_KeyStoreDir_wins
    {FS : Type} {F : os.Filesystem FS} (c c' : conf.NodeConfig) (fs : FS) :
  conf.KeyStoreDir c <> "" ->
  conf.KeyStoreDir c' = conf.KeyStoreDir c ->
  conf.KeyDirConfig c fs
  = (if os.filepath_IsAbs (conf.KeyStoreDir c)
     then (conf.KeyStoreDir c, None)
     else os.filepath_Abs fs (conf.KeyStoreDir c)) /\
  conf.KeyDirConfig c' fs = conf.KeyDirConfig c fs.
Proof.
  intros Hk E.
  assert (forall d : conf.NodeConfig,
            conf.KeyStoreDir d = conf.KeyStoreDir c ->
            conf.KeyDirConfig d fs
            = (if os.filepath_IsAbs (conf.KeyStoreDir c)
               then (conf.KeyStoreDir c, None)
               else os.filepath_Abs fs (conf.KeyStoreDir c))) as Hall.
  { intros d Ed. unfold conf.KeyDirConfig. rewrite Ed.
    destruct (os.filepath_IsAbs (conf.KeyStoreDir c)); [done|].
    destruct (String.eqb_spec (conf.KeyStoreDir c) ""); [done|].
    by destruct (String.eqb (conf.DataDir d) ""). }
  split; [by apply Hall|]. by rewrite (Hall c'), (Hall c).
Qed.

Lemma KeyDirConfig_KeyStoreDir_wins_witness :
  let fs := os.UnixFS "home/n42" [] true 0 in
  conf.KeyDirConfig (conf.withDirs "" "keys") fs = ("/home/n42/keys", None) /\
  conf.KeyDirConfig (conf.withDirs "/data" "keys") fs
  = conf.KeyDirConfig (conf.withDirs "" "keys") fs.
Proof.
  intros fs.
  destruct (KeyDirConfig_KeyStoreDir_wins (F := os.unixfs_Filesystem)
              (conf.withDirs "" "keys") (conf.withDirs "/data" "keys") fs)
    as (A & B); [discriminate | reflexivity |].
  split; [|exact B]. etrans; [exact A | reflexivity].
Defined.

(** X10 (the default below [DataDir]). When [KeyStoreDir] is empty and
    [DataDir] is not, [KeyDirConfig] returns [DataDir] joined with
    [keystore] and a nil error. The path is not made absolute and the
    working directory plays no part: the result is the same in every state
    of the file system. *)
Theorem KeyDirConfig_default_below_DataDir
    {FS : Type} {F : os.Filesystem FS} {PL : os.PathLaws FS}
    (c : conf.NodeConfig) (fs : FS) :
  conf.KeyStoreDir c = "" ->
  conf.DataDir c <> "" ->
  conf.KeyDirConfig c fs
  = (os.filepath_Join (conf.DataDir c) "keystore", None) /\
  forall fs', conf.KeyDirConfig c fs' = conf.KeyDirConfig c fs.
Proof.
  intros Ek Hd.
  assert (forall s : FS,
            conf.KeyDirConfig c s
            = (os.filepath_Join (conf.DataDir c) "keystore", None)) as Hall.
  { intros s. unfold conf.KeyDirConfig. rewrite Ek, os.IsAbs_empty.
    by destruct (String.eqb_spec (conf.DataDir c) ""). }
  split; [apply Hall|]. intros fs'. by rewrite !Hall.
Qed.

Lemma KeyDirConfig_default_below_DataDir_witness :
  conf.KeyDirConfig (conf.withDirs "data" "") (os.UnixFS "home/n42" [] true 0)
  = ("data/keystore", None) /\
  conf.KeyDirConfig (conf.withDirs "data" "") (os.UnixFS "srv" [] false 9)
  = conf.KeyDirConfig (conf.withDirs "data" "")
      (os.UnixFS "home/n42" [] true 0).
Proof.
  destruct (KeyDirConfig_default_below_DataDir (F := os.unixfs_Filesystem)
              (conf.withDirs "data" "") (os.UnixFS "home/n42" [] true 0))
    as (A & B); [reflexivity | discriminate |].
  split; [|apply B]. etrans; [exact A | reflexivity].
Defined.

(** X11 (where an error of [KeyDirConfig] comes from). [KeyDirConfig]
    returns an error only through [filepath.Abs]: [KeyStoreDir] is then
    neither empty nor absolute, and directory and error are the ones
    [filepath.Abs] returned for it. *)
Theorem KeyDirConfig_error_from_Abs
    {FS : Type} {F : os.Filesystem FS}
    (c : conf.NodeConfig) (fs : FS) (d : string) (e : error) :
  conf.KeyDirConfig c fs = (d, Some e) ->
  conf.KeyStoreDir c <> "" /\
  os.filepath_IsAbs (conf.KeyStoreDir c) = false /\
  os.filepath_Abs fs (conf.KeyStoreDir c) = (d, Some e).
Proof.
  unfold conf.KeyDirConfig.
  destruct (os.filepath_IsAbs (conf.KeyStoreDir c)); [discriminate|].
  destruct (String.eqb_spec (conf.KeyStoreDir c) "") as [K|K];
    destruct (String.eqb (conf.DataDir c) ""); cbn [negb];
    try discriminate; done.
Qed.

Lemma KeyDirConfig_error_from_Abs_witness :
  let c := conf.withDirs "/data" "keys" in
  let fs := lostcwd.LostCwd (os.UnixFS "" [] true 0) in
  let e := foreignError 2 "getwd: no such file or directory" in
  conf.KeyStoreDir c <> "" /\
  os.filepath_IsAbs (Filesystem := lostcwd.fs_Filesystem) (conf.KeyStoreDir c)
  = false /\
  os.filepath_Abs fs (conf.KeyStoreDir c) = ("", Some e).
Proof.
  intros c fs e.
  apply (KeyDirConfig_error_from_Abs (F := lostcwd.fs_Filesystem) c fs "" e).
  reflexivity.
Defined.

(** X12 (a configured directory is never ephemeral). When [DataDir] or
    [KeyStoreDir] is set and [getKeyStoreDir] returns a nil error, it
    reports [isEphemeral = false], the directory is the one [KeyDirConfig]
    resolved, and the only change to the file system is [os.MkdirAll] of
    that directory with mode 0700: no temporary directory is made. *)
Theorem getKeyStoreDir_configured
    {FS : Type} {F : os.Filesystem FS} {PL : os.PathLaws FS}
    (c : conf.NodeConfig) (fs fs' : FS) (keydir : string)
    (isEphemeral : bool) :
  conf.DataDir c <> "" \/ conf.KeyStoreDir c <> "" ->
  conf.getKeyStoreDir c fs = ((keydir, isEphemeral, None), fs') ->
  isEphemeral = false /\
  conf.KeyDirConfig c fs = (keydir, None) /\
  os.os_MkdirAll fs keydir 448 = (None, fs').
Proof.
  intros Hset Hg.
  destruct (conf.KeyDirConfig c fs) as [d [e|]] eqn:K.
  { rewrite (getKeyStoreDir_resolve_error c fs d e K) in Hg. discriminate. }
  assert (d <> "") as Hd.
  { intros ->. apply KeyDirConfig_empty_iff in K as [D S].
    by destruct Hset. }
  rewrite (getKeyStoreDir_resolved c fs d K Hd) in Hg.
  destruct (os.os_MkdirAll fs d 448) as [[e|] fs2] eqn:A; [discriminate|].
  by injection Hg as <- <- <-.
Qed.

Lemma getKeyStoreDir_configured_witness :
  let c := conf.withDirs "data" "" in
  let fs := os.UnixFS "home/n42" [] true 0 in
  conf.KeyDirConfig c fs = ("data/keystore", None) /\
  os.os_MkdirAll fs "data/keystore" 448
  = (None, os.UnixFS "home/n42" ["data/keystore"] true 0).
Proof.
  intros c fs.
  destruct (getKeyStoreDir_configured (F := os.unixfs_Filesystem) c fs
              (os.UnixFS "home/n42" ["data/keystore"] true 0)
              "data/keystore" false) as (_ & A & B).
  - left. discriminate.
  - reflexivity.
  - by split.
Defined.

(** X13 (where an error of [getKeyStoreDir] comes from). An error returned
    by [getKeyStoreDir] is the error of the step that failed, unchanged:
    of [KeyDirConfig], and then the file system is untouched; of
    [os.MkdirTemp], when no directory was configured; or of [os.MkdirAll],
    run on the resolved or on the temporary directory, which in the latter
    case has been made and is left in place. *)
Theorem getKeyStoreDir_error_from_step
    {FS : Type} {F : os.Filesystem FS}
    (c : conf.NodeConfig) (fs fs' : FS) (keydir : string)
    (isEphemeral : bool) (e : error) :
  conf.getKeyStoreDir c fs = ((keydir, isEphemeral, Some e), fs') ->
  (snd (conf.KeyDirConfig c fs) = Some e /\ fs' = fs) \/
  (conf.KeyDirConfig c fs = ("", None) /\
   exists t, os.os_MkdirTemp fs "" "N42-keystore" = ((t, Some e), fs')) \/
  (conf.KeyDirConfig c fs = ("", None) /\
   exists t fs1,
     os.os_MkdirTemp fs "" "N42-keystore" = ((t, None), fs1) /\
     os.os_MkdirAll fs1 t 448 = (Some e, fs')) \/
  (exists d,
     d <> "" /\ conf.KeyDirConfig c fs = (d, None) /\
     os.os_MkdirAll fs d 448 = (Some e, fs')).
Proof.
  intros Hg.
  destruct (conf.KeyDirConfig c fs) as [d [e0|]] eqn:K.
  { rewrite (getKeyStoreDir_resolve_error c fs d e0 K) in Hg.
    injection Hg as _ _ <- <-. by left. }
  destruct (decide (d = "")) as [->|Hd].
  - rewrite (getKeyStoreDir_temporary c fs K) in Hg.
    destruct (os.os_MkdirTemp fs "" "N42-keystore") as [[t [e1|]] fs1].
    { injection Hg as _ _ <- <-. right; left. split; [done|]. by exists t. }
    destruct (os.os_MkdirAll fs1 t 448) as [[e2|] fs2] eqn:A; [|discriminate].
    injection Hg as _ _ <- <-. right; right; left. split; [done|].
    by exists t, fs1.
  - rewrite (getKeyStoreDir_resolved c fs d K Hd) in Hg.
    destruct (os.os_MkdirAll fs d 448) as [[e2|] fs2] eqn:A; [|discriminate].
    injection Hg as _ _ <- <-. right; right; right. by exists d.
Qed.

Lemma getKeyStoreDir_error_from_step_witness :
  let c := conf.withDirs "/data" "keys" in
  let fs := lostcwd.LostCwd (os.UnixFS "" [] true 0) in
  let e := foreignError 2 "getwd: no such file or directory" in
  conf.getKeyStoreDir c fs = (("", false, Some e), fs) /\
  snd (conf.KeyDirConfig c fs) = Some e.
Proof.
  intros c fs e. split; [reflexivity|].
  destruct (getKeyStoreDir_error_from_step (F := lostcwd.fs_Filesystem)
              c fs fs "" false e eq_refl)
    as [(A & _)|[(A & _)|[(A & _)|(d & _ & A & _)]]];
    [exact A | discriminate A | discriminate A | discriminate A].
Defined.

(** X14 (the directory returned has been made). Whenever [getKeyStoreDir]
    returns a nil error, its last step was a successful [os.MkdirAll] of the
    very directory it returns, with mode 0700, temporary or not; when the
    directory is not ephemeral that is its only step on the file system. *)
Theorem getKeyStoreDir_returns_made_directory
    {FS : Type} {F : os.Filesystem FS}
    (c : conf.NodeConfig) (fs fs' : FS) (keydir : string)
    (isEphemeral : bool) :
  conf.getKeyStoreDir c fs = ((keydir, isEphemeral, None), fs') ->
  exists fs1,
    os.os_MkdirAll fs1 keydir 448 = (None, fs') /\
    (isEphemeral = false -> fs1 = fs).
Proof.
  intros Hg.
  destruct (conf.KeyDirConfig c fs) as [d [e0|]] eqn:K.
  { rewrite (getKeyStoreDir_resolve_error c fs d e0 K) in Hg. discriminate. }
  destruct (decide (d = "")) as [->|Hd].
  - rewrite (getKeyStoreDir_temporary c fs K) in Hg.
    destruct (os.os_MkdirTemp fs "" "N42-keystore") as [[t [e1|]] fs1];
      [discriminate|].
    destruct (os.os_MkdirAll fs1 t 448) as [[e2|] fs2] eqn:A; [discriminate|].
    injection Hg as <- <- <-. exists fs1. by split.
  - rewrite (getKeyStoreDir_resolved c fs d K Hd) in Hg.
    destruct (os.os_MkdirAll fs d 448) as [[e2|] fs2] eqn:A; [discriminate|].
    injection Hg as <- <- <-. exists fs. by split.
Qed.

Lemma getKeyStoreDir_returns_made_directory_witness :
  let c := conf.withDirs "" "" in
  let fs := os.UnixFS "home/n42" [] true 7 in
  let fs' := os.UnixFS "home/n42" ["/tmp/N42-keystore7"] true 8 in
  exists fs1, os.os_MkdirAll fs1 "/tmp/N42-keystore7" 448 = (None, fs').
Proof.
  intros c fs fs'.
  destruct (getKeyStoreDir_returns_made_directory
              (F := os.unixfs_Filesystem) c fs fs' "/tmp/N42-keystore7" true
              eq_refl) as (fs1 & A & _).
  by exists fs1.
Defined.
